(** * wkreport: the HTML table report of [cmd/wkreport/main.py]

    The script builds a two-row table of text cells, escapes every cell with
    [html.escape], wraps the cells in [<td>], the rows in [<tr>] and the whole
    in [<table>], and prints the result.

    Python text is modelled as [string]; the five characters the escaping
    touches are ASCII, so the model reads a string as the sequence of its
    characters (or of the bytes of its UTF-8 encoding, where a byte below 128
    is always a character of its own). *)

From Stdlib Require Import String Ascii List Bool Arith NArith ZArith Lia.
From Stdlib Require Import DecimalString.
Import ListNotations.

Open Scope string_scope.

(** ** Errors

    Python raises; the model returns the exception on the left of a sum. *)

Inductive exn : Type :=
| AttributeError (type_name attribute : string)
| TypeError (message : string).

Definition result (A : Type) : Type := (exn + A)%type.

Definition ok {A} (a : A) : result A := inr a.
Definition raise {A} (e : exn) : result A := inl e.

Definition bind {A B} (m : result A) (k : A -> result B) : result B :=
  match m with
  | inl e => inl e
  | inr a => k a
  end.

Notation "x <- m ;; k" := (bind m (fun x => k))
  (at level 61, m at next level, right associativity).

(** ** Values

    The cells of a row are Python objects.  The script only ever stores
    [str] objects, the other constructors are what a caller could put there.

    [html.escape] asks one thing of its argument: the attribute [replace],
    called with two [str] arguments.  An object of another type is given by
    the name of its type, the text [str] gives for it, and what that
    attribute does:
    - the type has none ([float], [list], ...): the call raises
      [AttributeError];
    - it has one that does not take two [str] ([bytes], [datetime]): the
      call raises, a [TypeError] for these types;
    - it has one that works on a text as [str.replace] does (a subclass of
      [str], [collections.UserString]): the object is escaped as that
      text. *)

Inductive replace_attr : Type :=
| NoReplace
| ReplaceRaises (e : exn)
| ReplaceText (s : string).

Inductive pyval : Type :=
| PyStr (s : string)
| PyInt (n : Z)
| PyBool (b : bool)
| PyNone
| PyObject (type_name text : string) (replace : replace_attr).

Definition type_name (v : pyval) : string :=
  match v with
  | PyStr _ => "str"
  | PyInt _ => "int"
  | PyBool _ => "bool"
  | PyNone => "NoneType"
  | PyObject name _ _ => name
  end.

(** ** Characters and strings *)

Definition LF : string := String "010"%char EmptyString.
Definition AMP : ascii := "&"%char.
Definition LT : ascii := "<"%char.
Definition GT : ascii := ">"%char.
Definition QUOT : ascii := "034"%char.
Definition APOS : ascii := "'"%char.

Definition str1 (c : ascii) : string := String c EmptyString.

(** [str.startswith]: [startswith p s] holds when [p] is a prefix of [s]. *)
Fixpoint startswith (p s : string) : bool :=
  match p with
  | EmptyString => true
  | String a p' =>
      match s with
      | EmptyString => false
      | String b s' => if Ascii.eqb a b then startswith p' s' else false
      end
  end.

(** [c in s] for a character [c]. *)
Fixpoint contains (c : ascii) (s : string) : bool :=
  match s with
  | EmptyString => false
  | String b s' => if Ascii.eqb c b then true else contains c s'
  end.

(** Every character of [s] mapped to a string, the pieces concatenated. *)
Fixpoint flat_map_str (f : ascii -> string) (s : string) : string :=
  match s with
  | EmptyString => EmptyString
  | String c s' => f c ++ flat_map_str f s'
  end.

(** [str.replace(old, new)]: the occurrences of [old] are found from left to
    right and do not overlap; the text put in their place is not searched
    again.  [skip] counts the characters of a matched occurrence that are
    still to be dropped.  For an empty [old] Python puts [new] before every
    character and at the end. *)
Fixpoint replace_from (old new : string) (skip : nat) (s : string) : string :=
  match s with
  | EmptyString => EmptyString
  | String c s' =>
      match skip with
      | S k => replace_from old new k s'
      | O =>
          if startswith old s
          then new ++ replace_from old new (pred (String.length old)) s'
          else String c (replace_from old new 0 s')
      end
  end.

Definition replace (old new s : string) : string :=
  match old with
  | EmptyString => new ++ flat_map_str (fun c => String c new) s
  | _ => replace_from old new 0 s
  end.

(** What [replace] does to one character when [old] is the character [a]. *)
Definition replace_char (a : ascii) (new : string) (c : ascii) : string :=
  if Ascii.eqb a c then new else str1 c.

(** ** [html.escape]

    The library function makes five calls of [str.replace], in this order:
    the ampersand becomes [&amp;] (the source notes that this one must be
    done first), then [<] becomes [&lt;], then [>] becomes [&gt;], and, when
    [quote] is true (the default, and what the script uses), the double quote
    becomes [&quot;] and at last the apostrophe becomes [&#x27;].

    [escape_text] is the body on a [str]; [html_escape] is the call on any
    object, with the text the f-string writes for what it returns.  An
    object without the [replace] the body asks for raises at the first
    line; an object with a [replace] that works on text is escaped as that
    text. *)

Definition escape_text (quote : bool) (s : string) : string :=
  let s := replace (str1 AMP) "&amp;" s in
  let s := replace (str1 LT) "&lt;" s in
  let s := replace (str1 GT) "&gt;" s in
  if quote then
    let s := replace (str1 QUOT) "&quot;" s in
    let s := replace (str1 APOS) "&#x27;" s in
    s
  else s.

Definition html_escape (s : pyval) : result string :=
  match s with
  | PyStr t => ok (escape_text true t)
  | PyObject _ _ (ReplaceText t) => ok (escape_text true t)
  | PyObject _ _ (ReplaceRaises e) => raise e
  | v => raise (AttributeError (type_name v) "replace")
  end.

(** The escaping rule as a table, one character at a time. *)
Definition escape_char (c : ascii) : string :=
  if Ascii.eqb c AMP then "&amp;"
  else if Ascii.eqb c LT then "&lt;"
  else if Ascii.eqb c GT then "&gt;"
  else if Ascii.eqb c QUOT then "&quot;"
  else if Ascii.eqb c APOS then "&#x27;"
  else str1 c.

(** The rule applied in one pass from left to right: each character of the
    input is looked up once, and what is written is never looked at again. *)
Definition escape_single_pass (s : string) : string :=
  flat_map_str escape_char s.

Definition is_special (c : ascii) : bool :=
  Ascii.eqb c AMP || Ascii.eqb c LT || Ascii.eqb c GT
  || Ascii.eqb c QUOT || Ascii.eqb c APOS.

(** No character of [s] is one of the five. *)
Fixpoint safe_text (s : string) : bool :=
  match s with
  | EmptyString => true
  | String c s' => negb (is_special c) && safe_text s'
  end.

(** ** The table

    [[
    table = '<table>\n'
    for row in data:
        table += '  <tr>' + ''.join(f'<td>{html.escape(cell)}</td>' for cell in row) + '</tr>\n'
    table += '</table>'
    ]] *)

(** [sep.join(items)]. *)
Fixpoint join (sep : string) (items : list string) : string :=
  match items with
  | [] => EmptyString
  | [x] => x
  | x :: rest => x ++ sep ++ join sep rest
  end.

(** The f-string of one cell. *)
Definition td (cell : pyval) : result string :=
  e <- html_escape cell ;;
  ok ("<td>" ++ e ++ "</td>").

(** The generator expression, as [join] consumes it: the cells in order, and
    the first exception ends it. *)
Fixpoint cells_of (row : list pyval) : result (list string) :=
  match row with
  | [] => ok []
  | cell :: rest =>
      x <- td cell ;;
      xs <- cells_of rest ;;
      ok (x :: xs)
  end.

(** The right-hand side of the [+=] in the loop. *)
Definition tr (row : list pyval) : result string :=
  cells <- cells_of row ;;
  ok ("  <tr>" ++ join "" cells ++ "</tr>" ++ LF).

(** The [for] loop, with the variable [table] passed along. *)
Fixpoint for_rows (t : string) (data : list (list pyval)) : result string :=
  match data with
  | [] => ok t
  | row :: rest =>
      line <- tr row ;;
      for_rows (t ++ line) rest
  end.

(** The value of [table] when the script reaches [print], for any [data]. *)
Definition table (data : list (list pyval)) : result string :=
  t <- for_rows ("<table>" ++ LF) data ;;
  ok (t ++ "</table>").

(** Rows of text cells, as the specification's [render] takes them. *)
Definition text_rows (rows : list (list string)) : list (list pyval) :=
  map (map PyStr) rows.

(** ** The clock

    [datetime.now()] returns a [datetime] object; its constructor checks the
    fields ([_check_date_fields], [_check_time_fields]), so that every object
    satisfies [valid_datetime]. *)

Record datetime : Type := mk_datetime {
  year : Z;
  month : Z;
  day : Z;
  hour : Z;
  minute : Z;
  second : Z;
  microsecond : Z
}.

Definition MINYEAR : Z := 1.
Definition MAXYEAR : Z := 9999.

Definition is_leap (y : Z) : bool :=
  ((y mod 4 =? 0) && (negb (y mod 100 =? 0) || (y mod 400 =? 0)))%Z.

Definition days_in_month (y m : Z) : Z :=
  (if m =? 2 then (if is_leap y then 29 else 28)
   else if (m =? 4) || (m =? 6) || (m =? 9) || (m =? 11) then 30
   else 31)%Z.

Definition valid_datetime (d : datetime) : bool :=
  ((MINYEAR <=? year d) && (year d <=? MAXYEAR)
   && (1 <=? month d) && (month d <=? 12)
   && (1 <=? day d) && (day d <=? days_in_month (year d) (month d))
   && (0 <=? hour d) && (hour d <=? 23)
   && (0 <=? minute d) && (minute d <=? 59)
   && (0 <=? second d) && (second d <=? 59)
   && (0 <=? microsecond d) && (microsecond d <=? 999999))%Z.

(** [str(n)] for an [int]. *)
Definition decimal (n : Z) : string := NilZero.string_of_int (Z.to_int n).

Fixpoint zeros (k : nat) : string :=
  match k with
  | O => EmptyString
  | S k' => String "0"%char (zeros k')
  end.

(** C's [%0wd]: the decimal digits, zeros put in front up to [w] characters,
    after the sign if there is one. *)
Definition zpad (w : nat) (n : Z) : string :=
  if (n <? 0)%Z
  then
    let ds := decimal (Z.opp n) in
    "-" ++ zeros (pred w - String.length ds) ++ ds
  else
    let ds := decimal n in
    zeros (w - String.length ds) ++ ds.

(** One directive of [strftime].  The method hands the format to the C
    library's [strftime]: [%Y] is the year as a decimal number, with no
    zeros in front (the year 999 is written [999]), and the month, day,
    hour, minute and second are written in two digits.  The other
    directives of the library are not used by the script and are copied as
    they are. *)
Definition directive (c : ascii) (d : datetime) : string :=
  if Ascii.eqb c "Y" then decimal (year d)
  else if Ascii.eqb c "m" then zpad 2 (month d)
  else if Ascii.eqb c "d" then zpad 2 (day d)
  else if Ascii.eqb c "H" then zpad 2 (hour d)
  else if Ascii.eqb c "M" then zpad 2 (minute d)
  else if Ascii.eqb c "S" then zpad 2 (second d)
  else if Ascii.eqb c "%" then "%"
  else String "%" (str1 c).

(** [d.strftime(format)]. *)
Fixpoint strftime (d : datetime) (format : string) : string :=
  match format with
  | EmptyString => EmptyString
  | String c rest =>
      if Ascii.eqb c "%" then
        match rest with
        | EmptyString => "%"
        | String x rest' => directive x d ++ strftime d rest'
        end
      else String c (strftime d rest)
  end.

(** ** The script *)

(** What the process can read.  The script reads the clock and nothing
    else. *)
Record Env : Type := mk_Env {
  clock : datetime;
  argv : list string;
  environ : list (string * string);
  stdin : string
}.

Definition datetime_now (env : Env) : datetime := clock env.

Definition data (env : Env) : list (list pyval) :=
  [ [PyStr "KEY"; PyStr "SUMMARY"; PyStr "STATUS"; PyStr "PARENT";
     PyStr "RESOLVED"];
    [PyStr "ABC-1"; PyStr "Something"; PyStr "In Progress"; PyStr "ABC";
     PyStr (strftime (datetime_now env) "%Y-%m-%d %H:%M")] ].

(** [print(s)] writes [s] and then its [end], a newline, to standard
    output. *)
Definition print (s : string) (stdout : string) : string :=
  stdout ++ s ++ LF.

Record Outcome : Type := mk_Outcome {
  stdout : string;
  exit_status : Z
}.

(** The whole script; an exception that nothing catches ends the process
    with status 1 before anything is printed. *)
Definition main (env : Env) : Outcome :=
  match table (data env) with
  | inr t => {| stdout := print t ""; exit_status := 0 |}
  | inl _ => {| stdout := ""; exit_status := 1 |}
  end.

(** ** Reading the output back

    What the statements about the output speak of: occurrences of a tag, the
    text between a [<tr>] and its [</tr>], the end of the text, the shape of
    the time stamp. *)

Fixpoint drop (n : nat) (s : string) : string :=
  match n, s with
  | S k, String _ s' => drop k s'
  | _, _ => s
  end.

(** The number of positions of [s] at which [pat] starts. *)
Fixpoint occurrences (pat s : string) : nat :=
  match s with
  | EmptyString => if startswith pat EmptyString then 1 else 0
  | String _ s' => (if startswith pat s then 1 else 0) + occurrences pat s'
  end.

(** [s.partition(sep)] when [sep] occurs in [s]: the text before its first
    occurrence and the text after it. *)
Fixpoint partition (sep s : string) : option (string * string) :=
  if startswith sep s then Some (EmptyString, drop (String.length sep) s)
  else
    match s with
    | EmptyString => None
    | String c s' =>
        match partition sep s' with
        | Some (before, after) => Some (String c before, after)
        | None => None
        end
    end.

(** The text between each [<tr>] and the first [</tr>] after it, from left
    to right.  Every round takes at least the two tags away, so the length
    of the text is fuel enough. *)
Fixpoint tr_bodies_from (fuel : nat) (s : string) : list string :=
  match fuel with
  | O => []
  | S k =>
      match partition "<tr>" s with
      | None => []
      | Some (_, after_open) =>
          match partition "</tr>" after_open with
          | None => []
          | Some (body, after_close) => body :: tr_bodies_from k after_close
          end
      end
  end.

Definition tr_bodies (s : string) : list string :=
  tr_bodies_from (String.length s) s.

(** [s.endswith(suffix)]. *)
Definition endswith (suffix s : string) : bool :=
  (String.length suffix <=? String.length s)%nat
  && String.eqb (drop (String.length s - String.length suffix) s) suffix.

Definition is_digit (c : ascii) : bool :=
  ((48 <=? N_of_ascii c) && (N_of_ascii c <=? 57))%N.

Definition digit_value (c : ascii) : Z := Z.of_N (N_of_ascii c) - 48.

Definition two_digits (a b : ascii) : Z := 10 * digit_value a + digit_value b.



(** The character references [html.escape] writes. *)
Definition escape_refs : list string :=
  ["&amp;"; "&lt;"; "&gt;"; "&quot;"; "&#x27;"].

(** No raw occurrence of the five characters: [<], [>], the double quote and
    the apostrophe do not occur, and an ampersand occurs only as the first
    character of one of [escape_refs]. *)
Fixpoint no_raw_special (s : string) : bool :=
  match s with
  | EmptyString => true
  | String c s' =>
      (if Ascii.eqb c AMP then existsb (fun r => startswith r s) escape_refs
       else negb (is_special c))
      && no_raw_special s'
  end.

(** At least one of the five characters occurs. *)
Definition has_special (s : string) : bool := negb (safe_text s).

(** [str(v)]. *)
Definition py_str (v : pyval) : string :=
  match v with
  | PyStr s => s
  | PyInt n => decimal n
  | PyBool true => "True"
  | PyBool false => "False"
  | PyNone => "None"
  | PyObject _ text _ => text
  end.

(** ** [html.unescape]

    The library function the round trip is measured with.  It replaces every
    match of the regular expression
    [&(#[0-9]+;?|#[xX][0-9a-fA-F]+;?|[^\t\n\f <&#;]{1,32};?)], from left to
    right, by what [_replace_charref] gives for the text after the
    ampersand.  The table [html5] of the named references (2231 entries in
    the library) is an argument. *)

Definition is_hex_digit (c : ascii) : bool :=
  let n := N_of_ascii c in
  (is_digit c || ((65 <=? n) && (n <=? 70)) || ((97 <=? n) && (n <=? 102)))%N.

Definition is_x (c : ascii) : bool := Ascii.eqb c "x" || Ascii.eqb c "X".

(** The class [[^\t\n\f <&#;]]. *)
Definition is_name_char (c : ascii) : bool :=
  negb (Ascii.eqb c "009" || Ascii.eqb c "010" || Ascii.eqb c "012"
        || Ascii.eqb c " " || Ascii.eqb c "<" || Ascii.eqb c "&"
        || Ascii.eqb c "#" || Ascii.eqb c ";").

(** The longest prefix of [s] whose characters satisfy [p]. *)
Fixpoint take_while (p : ascii -> bool) (s : string) : string :=
  match s with
  | EmptyString => EmptyString
  | String c s' => if p c then String c (take_while p s') else EmptyString
  end.

(** The same, of at most [n] characters. *)
Fixpoint take_upto (n : nat) (p : ascii -> bool) (s : string) : string :=
  match n, s with
  | S k, String c s' =>
      if p c then String c (take_upto k p s') else EmptyString
  | _, _ => EmptyString
  end.

(** [body;?]: [body] was matched at the start of [s]; a semicolon right
    after it is part of the match. *)
Definition with_semicolon (body s : string) : string :=
  if startswith ";" (drop (String.length body) s) then body ++ ";" else body.

Definition nonempty (s : string) : bool :=
  match s with
  | EmptyString => false
  | _ => true
  end.

(** The group of the regular expression matched at the start of [s], the text
    after an ampersand.  The repetitions are greedy and nothing after them
    can fail, so each alternative takes the longest run. *)
Definition match_charref (s : string) : option string :=
  match s with
  | String c t =>
      if Ascii.eqb c "#" then
        let ds := take_while is_digit t in
        if nonempty ds then Some (with_semicolon (String c ds) s)
        else
          match t with
          | String x u =>
              let hs := take_while is_hex_digit u in
              if is_x x && nonempty hs
              then Some (with_semicolon (String c (String x hs)) s)
              else None
          | EmptyString => None
          end
      else
        let nm := take_upto 32 is_name_char s in
        if nonempty nm then Some (with_semicolon nm s) else None
  | EmptyString => None
  end.

Definition hex_value (c : ascii) : N :=
  let n := N_of_ascii c in
  (if is_digit c then n - 48
   else if (97 <=? n) then n - 87
   else n - 55)%N.

(** [int(s, base)] on a string of digits of that base. *)
Fixpoint int_of_digits (base : N) (acc : N) (s : string) : N :=
  match s with
  | EmptyString => acc
  | String c s' => int_of_digits base (base * acc + hex_value c)%N s'
  end.

(** [s.rstrip(';')]. *)
Fixpoint rstrip_semicolon (s : string) : string :=
  match s with
  | EmptyString => EmptyString
  | String c s' =>
      match rstrip_semicolon s' with
      | EmptyString => if Ascii.eqb c ";" then EmptyString else str1 c
      | r => String c r
      end
  end.

Definition byte (n : N) : ascii := ascii_of_N n.

(** [chr(n)], in UTF-8. *)
Definition chr (n : N) : string :=
  (if n <? 128 then str1 (byte n)
   else if n <? 2048 then
     String (byte (192 + n / 64)) (str1 (byte (128 + n mod 64)))
   else if n <? 65536 then
     String (byte (224 + n / 4096))
       (String (byte (128 + (n / 64) mod 64)) (str1 (byte (128 + n mod 64))))
   else
     String (byte (240 + n / 262144))
       (String (byte (128 + (n / 4096) mod 64))
          (String (byte (128 + (n / 64) mod 64))
             (str1 (byte (128 + n mod 64))))))%N.

(** [_invalid_charrefs]: the numbers a browser reads as another character. *)
Definition invalid_charrefs : list (N * N) :=
  [ (0x00, 0xfffd); (0x0d, 0x0d); (0x80, 0x20ac); (0x81, 0x81);
    (0x82, 0x201a); (0x83, 0x0192); (0x84, 0x201e); (0x85, 0x2026);
    (0x86, 0x2020); (0x87, 0x2021); (0x88, 0x02c6); (0x89, 0x2030);
    (0x8a, 0x0160); (0x8b, 0x2039); (0x8c, 0x0152); (0x8d, 0x8d);
    (0x8e, 0x017d); (0x8f, 0x8f); (0x90, 0x90); (0x91, 0x2018);
    (0x92, 0x2019); (0x93, 0x201c); (0x94, 0x201d); (0x95, 0x2022);
    (0x96, 0x2013); (0x97, 0x2014); (0x98, 0x02dc); (0x99, 0x2122);
    (0x9a, 0x0161); (0x9b, 0x203a); (0x9c, 0x0153); (0x9d, 0x9d);
    (0x9e, 0x017e); (0x9f, 0x0178) ]%N.

Fixpoint lookupN (k : N) (t : list (N * N)) : option N :=
  match t with
  | [] => None
  | (k', v) :: t' => if (k =? k')%N then Some v else lookupN k t'
  end.

(** [_invalid_codepoints]. *)
Definition invalid_codepoint (n : N) : bool :=
  ((1 <=? n) && (n <=? 8)
   || (14 <=? n) && (n <=? 31)
   || (127 <=? n) && (n <=? 159)
   || (0xfdd0 <=? n) && (n <=? 0xfdef)
   || (n =? 11)
   || ((n mod 65536 =? 0xfffe) || (n mod 65536 =? 0xffff)) && (n <=? 0x10ffff))%N.

(** The longest proper prefix of the name, of two characters at least, that
    the table knows, followed by the rest of the name: the loop
    [for x in range(len(s)-1, 1, -1)], counted by [k], where [x] is [k + 1]. *)
Fixpoint longest_name (html5 : string -> option string) (s : string)
    (k : nat) : option string :=
  match k with
  | O => None
  | S k' =>
      match html5 (substring 0 (S k) s) with
      | Some v => Some (v ++ drop (S k) s)
      | None => longest_name html5 s k'
      end
  end.

(** [_replace_charref], on the matched group. *)
Definition replace_charref (html5 : string -> option string) (s : string)
    : string :=
  match s with
  | String c t =>
      if Ascii.eqb c "#" then
        let num :=
          match t with
          | String x u =>
              if is_x x then int_of_digits 16 0 (rstrip_semicolon u)
              else int_of_digits 10 0 (rstrip_semicolon t)
          | EmptyString => 0%N
          end in
        match lookupN num invalid_charrefs with
        | Some v => chr v
        | None =>
            if ((0xD800 <=? num) && (num <=? 0xDFFF) || (0x10FFFF <? num))%N
            then chr 0xFFFD
            else if invalid_codepoint num then EmptyString
            else chr num
        end
      else
        match html5 s with
        | Some v => v
        | None =>
            match longest_name html5 s (String.length s - 2) with
            | Some r => r
            | None => String AMP s
            end
        end
  | EmptyString => EmptyString
  end.

(** [_charref.sub(_replace_charref, s)]: [skip] counts the characters of the
    last match that are still to be passed over. *)
Fixpoint sub_charref (html5 : string -> option string) (skip : nat)
    (s : string) : string :=
  match s with
  | EmptyString => EmptyString
  | String c s' =>
      match skip with
      | S k => sub_charref html5 k s'
      | O =>
          if Ascii.eqb c AMP then
            match match_charref s' with
            | Some g =>
                replace_charref html5 g
                ++ sub_charref html5 (String.length g) s'
            | None => String c (sub_charref html5 0 s')
            end
          else String c (sub_charref html5 0 s')
      end
  end.

Definition unescape (html5 : string -> option string) (s : string) : string :=
  if contains AMP s then sub_charref html5 0 s else s.

(** The entries of [html.entities.html5] for the four named references of
    this development, in the spellings the library lists. *)
Definition html5_core_entries : list (string * string) :=
  [ ("AMP", "&"); ("amp", "&"); ("AMP;", "&"); ("amp;", "&");
    ("GT", ">"); ("gt", ">"); ("GT;", ">"); ("gt;", ">");
    ("LT", "<"); ("lt", "<"); ("LT;", "<"); ("lt;", "<");
    ("QUOT", str1 QUOT); ("quot", str1 QUOT); ("QUOT;", str1 QUOT);
    ("quot;", str1 QUOT); ("apos;", "'") ].

Fixpoint lookup_str (k : string) (t : list (string * string)) : option string :=
  match t with
  | [] => None
  | (k', v) :: t' => if String.eqb k k' then Some v else lookup_str k t'
  end.

Definition html5_core (name : string) : option string :=
  lookup_str name html5_core_entries.

(** A table has the four named references of [html.escape]. *)
Definition has_core_entities (html5 : string -> option string) : Prop :=
  html5 "amp;" = Some "&" /\ html5 "lt;" = Some "<"
  /\ html5 "gt;" = Some ">" /\ html5 "quot;" = Some (str1 QUOT).

(** ** The table of text rows in closed form *)

Definition td_text (s : string) : string :=
  "<td>" ++ escape_single_pass s ++ "</td>".

Definition cells_text (row : list string) : string :=
  join "" (map td_text row).

Definition row_line (row : list string) : string :=
  "  <tr>" ++ cells_text row ++ "</tr>" ++ LF.

Fixpoint lines (rows : list (list string)) : string :=
  match rows with
  | [] => EmptyString
  | row :: rest => row_line row ++ lines rest
  end.

(** The exception [html.escape] raises on a cell, if it raises. *)
Definition escape_error (cell : pyval) : option exn :=
  match html_escape cell with
  | inl e => Some e
  | inr _ => None
  end.

(** The exception of the first cell on which [html.escape] raises, cells in
    order. *)
Fixpoint first_error (row : list pyval) : option exn :=
  match row with
  | [] => None
  | c :: rest =>
      match escape_error c with
      | Some e => Some e
      | None => first_error rest
      end
  end.

(** Cells of other types: a [bytes] object, a [float], and a
    [collections.UserString]. *)
Definition bytes_cell : pyval :=
  PyObject "bytes" "b'a<b'"
    (ReplaceRaises (TypeError "a bytes-like object is required, not 'str'")).

Definition float_cell : pyval := PyObject "float" "1.5" NoReplace.

Definition user_string_cell : pyval :=
  PyObject "UserString" "a<b" (ReplaceText "a<b").

(** [f] holds of the [k] integers from [z] on. *)
Fixpoint all_from (f : Z -> bool) (k : nat) (z : Z) : bool :=
  match k with
  | O => true
  | S k' => f z && all_from f k' (z + 1)
  end.

(** All characters of [s] are digits. *)
Fixpoint all_digits (s : string) : bool :=
  match s with
  | EmptyString => true
  | String c s' => is_digit c && all_digits s'
  end.

(** [decimal n] is digits only, and they stand for [n]. *)
Definition decimal_form (n : Z) : bool :=
  all_digits (decimal n)
  && (Z.of_N (int_of_digits 10 0 (decimal n)) =? n)%Z.

(** [zpad 2 n] is two digits that stand for [n]. *)
Definition two_digit_form (n : Z) : bool :=
  match list_ascii_of_string (zpad 2 n) with
  | [a; b] => is_digit a && is_digit b && (two_digits a b =? n)%Z
  | _ => false
  end.


(** A text that can stand in front of any other without a [<tr>] starting
    in it: the first [<tr>] of the whole is the first [<tr>] of what
    follows. *)
Definition tr_free (pre : string) : Prop :=
  forall x,
    partition "<tr>" (pre ++ x)
    = match partition "<tr>" x with
      | Some (a, b) => Some (pre ++ a, b)
      | None => None
      end.

(** ** Sample inputs *)

Definition FORMAT : string := "%Y-%m-%d %H:%M".

Definition sample_clock : datetime :=
  {| year := 2024; month := 3; day := 5; hour := 9; minute := 7;
     second := 30; microsecond := 125000 |}.

Definition sample_env : Env :=
  {| clock := sample_clock; argv := ["main.py"]; environ := []; stdin := "" |}.



(** Half a minute later, started another way. *)
Definition sample_env_later : Env :=
  {| clock :=
       {| year := 2024; month := 3; day := 5; hour := 9; minute := 7;
          second := 59; microsecond := 0 |};
     argv := ["main.py"; "-v"];
     environ := [("TZ", "UTC")];
     stdin := "ignored" |}.

(** ** Reading a table back

    The cells of a row of the output, and the rows of cells of a whole
    output: what a reader of the table gets. *)

(** The text between each [<td>] and the first [</td>] after it. *)
Fixpoint td_bodies_from (fuel : nat) (s : string) : list string :=
  match fuel with
  | O => []
  | S k =>
      match partition "<td>" s with
      | None => []
      | Some (_, after_open) =>
          match partition "</td>" after_open with
          | None => []
          | Some (body, after_close) => body :: td_bodies_from k after_close
          end
      end
  end.

Definition td_bodies (s : string) : list string :=
  td_bodies_from (String.length s) s.

(** The rows of cell texts of an output: the rows are the [<tr>] elements,
    the cells of a row its [<td>] elements, unescaped. *)
Definition read_table (html5 : string -> option string) (out : string)
    : list (list string) :=
  map (fun body => map (unescape html5) (td_bodies body)) (tr_bodies out).

(** The number of cells of all rows. *)
Definition total_cells (rows : list (list string)) : nat :=
  List.length (concat rows).

(** Two clock readings in the same minute. *)
Definition same_minute (d1 d2 : datetime) : Prop :=
  year d1 = year d2 /\ month d1 = month d2 /\ day d1 = day d2
  /\ hour d1 = hour d2 /\ minute d1 = minute d2.

(** Rows of unequal lengths, with cells that need escaping. *)
Definition sample_rows : list (list string) :=
  [ ["a<b"; "O'Brien & <Sons>"]; []; ["&lt;"] ].

(** ** Lemmas on strings *)

Lemma append_nil_r (s : string) : s ++ "" = s.
Proof. induction s as [|c s IH]; simpl; [reflexivity | now rewrite IH]. Qed.

Lemma append_assoc (a b c : string) : (a ++ b) ++ c = a ++ (b ++ c).
Proof. induction a as [|x a IH]; simpl; [reflexivity | now rewrite IH]. Qed.

Lemma flat_map_str_app (f : ascii -> string) (a b : string) :
  flat_map_str f (a ++ b) = flat_map_str f a ++ flat_map_str f b.
Proof.
  induction a as [|c a IH]; simpl; [reflexivity|].
  now rewrite IH, append_assoc.
Qed.

Lemma flat_map_str_ext (f g : ascii -> string) (s : string) :
  (forall c, f c = g c) -> flat_map_str f s = flat_map_str g s.
Proof.
  intros E. induction s as [|c s IH]; simpl; [reflexivity | now rewrite E, IH].
Qed.

Lemma flat_map_str_comp (f g : ascii -> string) (s : string) :
  flat_map_str g (flat_map_str f s)
  = flat_map_str (fun c => flat_map_str g (f c)) s.
Proof.
  induction s as [|c s IH]; simpl; [reflexivity|].
  now rewrite flat_map_str_app, IH.
Qed.

(** Replacing one character is a pass over the characters. *)
Lemma replace_single (a : ascii) (new s : string) :
  replace (str1 a) new s = flat_map_str (replace_char a new) s.
Proof.
  unfold replace, str1.
  induction s as [|c s IH]; simpl; [reflexivity|].
  unfold replace_char at 1.
  destruct (Ascii.eqb a c); simpl; now rewrite IH.
Qed.

(** The five replacements of [html.escape], one after the other, on one
    character: what an earlier replacement wrote holds none of the characters
    a later one looks for. *)
Lemma escape_steps_char (c : ascii) :
  flat_map_str
    (fun c0 =>
       flat_map_str
         (fun c1 =>
            flat_map_str
              (fun c2 =>
                 flat_map_str (replace_char APOS "&#x27;")
                   (replace_char QUOT "&quot;" c2))
              (replace_char GT "&gt;" c1))
         (replace_char LT "&lt;" c0))
    (replace_char AMP "&amp;" c)
  = escape_char c.
Proof.
  destruct c as [[] [] [] [] [] [] [] []]; reflexivity.
Qed.

Lemma escape_text_single_pass (s : string) :
  escape_text true s = escape_single_pass s.
Proof.
  unfold escape_text, escape_single_pass.
  rewrite !replace_single, !flat_map_str_comp.
  apply flat_map_str_ext, escape_steps_char.
Qed.

Lemma escape_char_safe (c : ascii) :
  is_special c = false -> escape_char c = str1 c.
Proof.
  unfold is_special, escape_char. intros H.
  repeat (apply orb_false_elim in H; destruct H as [H ?]).
  now repeat match goal with E : Ascii.eqb _ _ = false |- _ => rewrite E; clear E end.
Qed.

Lemma escape_single_pass_safe (s : string) :
  safe_text s = true -> escape_single_pass s = s.
Proof.
  unfold escape_single_pass.
  induction s as [|c s IH]; simpl; [reflexivity|].
  intros H. apply andb_true_iff in H. destruct H as [Hc Hs].
  apply negb_true_iff in Hc.
  now rewrite (escape_char_safe c Hc), IH.
Qed.

(** ** The escaping *)

(** C2: on every text, [html.escape] is the single pass from left to right
    that replaces each of the five characters by its reference and keeps
    every other character; the sample cell escapes as stated. *)
Theorem escape_is_single_pass :
  (forall s, html_escape (PyStr s) = ok (escape_single_pass s))
  /\ escape_char "&" = "&amp;"
  /\ escape_char "<" = "&lt;"
  /\ escape_char ">" = "&gt;"
  /\ escape_char QUOT = "&quot;"
  /\ escape_char "'" = "&#x27;"
  /\ (forall c, is_special c = false -> escape_char c = str1 c)
  /\ html_escape (PyStr "O'Brien & <Sons>")
     = ok "O&#x27;Brien &amp; &lt;Sons&gt;".
Proof.
  repeat split; try reflexivity.
  - intros s. unfold html_escape. now rewrite escape_text_single_pass.
  - exact escape_char_safe.
Qed.

Lemma escape_is_single_pass_witness :
  is_special "a" = false
  /\ escape_char "a" = "a"
  /\ html_escape (PyStr "a<b") = ok "a&lt;b".
Proof.
  destruct escape_is_single_pass as (H & _ & _ & _ & _ & _ & S & _).
  split; [reflexivity|]. split; [apply (S "a"%char); reflexivity|].
  apply (H "a<b").
Defined.

(** C7: a text with none of the five characters is escaped to itself. *)
Theorem escape_safe_identity (s : string) :
  safe_text s = true -> html_escape (PyStr s) = ok s.
Proof.
  intros H. unfold html_escape.
  now rewrite escape_text_single_pass, escape_single_pass_safe.
Qed.

Lemma escape_safe_identity_witness :
  safe_text "In Progress" = true
  /\ html_escape (PyStr "In Progress") = ok "In Progress".
Proof.
  split; [reflexivity | apply (escape_safe_identity "In Progress"); reflexivity].
Defined.

(** ** The table on rows of text *)

Lemma join_empty_cons (x : string) (xs : list string) :
  join "" (x :: xs) = x ++ join "" xs.
Proof.
  destruct xs as [|y ys]; simpl; [now rewrite append_nil_r | reflexivity].
Qed.

Lemma td_PyStr (s : string) : td (PyStr s) = ok (td_text s).
Proof.
  unfold td, td_text, html_escape.
  now rewrite escape_text_single_pass.
Qed.

Lemma cells_of_text (row : list string) :
  cells_of (map PyStr row) = ok (map td_text row).
Proof.
  induction row as [|s row IH]; [reflexivity|].
  cbn [map cells_of]. now rewrite td_PyStr, IH.
Qed.

Lemma tr_text (row : list string) : tr (map PyStr row) = ok (row_line row).
Proof. unfold tr. now rewrite cells_of_text. Qed.

Lemma for_rows_text (rows : list (list string)) (t : string) :
  for_rows t (text_rows rows) = ok (t ++ lines rows).
Proof.
  revert t. induction rows as [|row rows IH]; intros t.
  - simpl. now rewrite append_nil_r.
  - cbn [text_rows map for_rows]. rewrite tr_text. cbn [bind ok].
    fold (text_rows rows). now rewrite IH, append_assoc.
Qed.

Lemma table_text (rows : list (list string)) :
  table (text_rows rows)
  = ok ("<table>" ++ LF ++ lines rows ++ "</table>").
Proof.
  unfold table. rewrite for_rows_text. cbn [bind ok].
  now rewrite !append_assoc.
Qed.

(** C4, as the script has it: no rows give the opening tag, a newline and
    the closing tag, sixteen characters in all. *)
Theorem table_of_no_rows :
  table [] = ok ("<table>" ++ LF ++ "</table>")
  /\ String.length ("<table>" ++ LF ++ "</table>") = 16.
Proof. split; reflexivity. Qed.

(** C4 as stated fails: the text for no rows does not have nine
    characters. *)
Lemma table_of_no_rows_not_nine :
  ~ (exists t, table [] = ok t
               /\ t = "<table>" ++ LF ++ "</table>"
               /\ String.length t = 9).
Proof.
  intros (t & _ & E & L). subst t. discriminate L.
Qed.

(** ** Cells that are not text *)

Lemma td_escape_error (c : pyval) :
  match escape_error c with
  | Some e => td c = raise e
  | None => exists x, td c = ok x
  end.
Proof.
  unfold escape_error, td.
  destruct (html_escape c) as [e|x]; [reflexivity | now eexists].
Qed.

Lemma cells_of_error (row : list pyval) (e : exn) :
  first_error row = Some e -> cells_of row = raise e.
Proof.
  induction row as [|c row IH]; cbn [first_error cells_of]; [discriminate|].
  pose proof (td_escape_error c) as T.
  destruct (escape_error c) as [e'|].
  - intros H. injection H as <-. now rewrite T.
  - intros H. destruct T as [x ->]. cbn [bind]. now rewrite (IH H).
Qed.

Lemma cells_of_no_error (row : list pyval) :
  first_error row = None -> exists xs, cells_of row = ok xs.
Proof.
  induction row as [|c row IH]; cbn [first_error cells_of]; [now eexists|].
  pose proof (td_escape_error c) as T.
  destruct (escape_error c) as [e'|]; [discriminate|].
  intros H. destruct T as [x ->]. destruct (IH H) as [xs ->]. now eexists.
Qed.

Lemma first_error_app (a b : list pyval) :
  first_error (a ++ b)
  = match first_error a with
    | Some e => Some e
    | None => first_error b
    end.
Proof.
  induction a as [|c a IH]; cbn [app first_error]; [reflexivity|].
  now destruct (escape_error c).
Qed.

Lemma first_error_none (row : list pyval) (c : pyval) :
  first_error row = None -> In c row -> escape_error c = None.
Proof.
  induction row as [|x row IH]; cbn [first_error In]; [contradiction|].
  destruct (escape_error x) as [e|] eqn:E; [discriminate|].
  intros H [<-|I]; [exact E | now apply IH].
Qed.

Lemma tr_error (row : list pyval) (e : exn) :
  first_error row = Some e -> tr row = raise e.
Proof. intros H. unfold tr. now rewrite (cells_of_error row e H). Qed.

Lemma tr_no_error (row : list pyval) :
  first_error row = None -> exists line, tr row = ok line.
Proof.
  intros H. unfold tr. destruct (cells_of_no_error row H) as [xs ->].
  now eexists.
Qed.

Lemma for_rows_error (data : list (list pyval)) (t : string) (e : exn) :
  first_error (concat data) = Some e -> for_rows t data = raise e.
Proof.
  revert t. induction data as [|row data IH]; intros t; simpl; [discriminate|].
  rewrite first_error_app.
  destruct (first_error row) as [w|] eqn:E.
  - intros H. injection H as <-. now rewrite (tr_error row w E).
  - intros H. destruct (tr_no_error row E) as [line ->]. simpl. now apply IH.
Qed.

Lemma for_rows_no_error (data : list (list pyval)) (t : string) :
  first_error (concat data) = None -> exists t', for_rows t data = ok t'.
Proof.
  revert t. induction data as [|row data IH]; intros t; simpl; [now eexists|].
  rewrite first_error_app.
  destruct (first_error row) as [w|] eqn:E; [discriminate|].
  intros H. destruct (tr_no_error row E) as [line ->]. simpl. now apply IH.
Qed.

(** C9, as the script has it: a cell is passed to [html.escape] as it is
    given, never through [str].  A text cell is its own [str], and that
    text is escaped.  A number is not rendered in its string form:
    [html.escape] raises [AttributeError] on it, and a table with a number
    in any row is not rendered.  For cells of any types, the table is
    rendered when [html.escape] accepts every cell, and otherwise the
    exception of the first cell it does not accept, in the order of the rows
    and cells, is the result. *)
Theorem cells_escaped_as_given :
  (forall s, html_escape (PyStr s) = ok (escape_text true (py_str (PyStr s))))
  /\ (forall n, html_escape (PyInt n) = raise (AttributeError "int" "replace"))
  /\ (forall data row n, In row data -> In (PyInt n) row ->
        exists e, table data = raise e)
  /\ (forall data e, first_error (concat data) = Some e ->
        table data = raise e)
  /\ (forall data, first_error (concat data) = None ->
        exists t, table data = ok t).
Proof.
  assert (forall data e, first_error (concat data) = Some e ->
                         table data = raise e) as F.
  { intros data e H. unfold table. now rewrite (for_rows_error data _ e H). }
  split; [reflexivity|]. split; [reflexivity|]. split; [|split; [exact F|]].
  - intros data row n Hr Hn.
    destruct (first_error (concat data)) as [e|] eqn:E.
    + exists e. now apply F.
    + assert (In (PyInt n) (concat data)) as I
        by (apply in_concat; now exists row).
      pose proof (first_error_none _ _ E I) as N. discriminate N.
  - intros data H. unfold table.
    destruct (for_rows_no_error data ("<table>" ++ LF) H) as [t ->].
    now eexists.
Qed.

Lemma cells_escaped_as_given_witness :
  (exists e, table [[PyStr "n"]; [PyStr "1"; PyInt 1; PyNone]] = raise e)
  /\ table [[PyStr "n"]; [float_cell; PyInt 1]]
     = raise (AttributeError "float" "replace")
  /\ table [[PyStr "n"]; [PyStr "1"; bytes_cell; PyNone]]
     = raise (TypeError "a bytes-like object is required, not 'str'")
  /\ exists t, table [[PyStr "n"]; [PyStr "1"; user_string_cell]] = ok t.
Proof.
  destruct cells_escaped_as_given as (_ & _ & H3 & H4 & H5).
  split; [apply (H3 _ [PyStr "1"; PyInt 1; PyNone] 1%Z);
          [right; left; reflexivity | right; left; reflexivity]|].
  split; [apply (H4 [[PyStr "n"]; [float_cell; PyInt 1]]); reflexivity|].
  split; [apply (H4 [[PyStr "n"]; [PyStr "1"; bytes_cell; PyNone]]);
          reflexivity|].
  apply (H5 [[PyStr "n"]; [PyStr "1"; user_string_cell]]); reflexivity.
Defined.

(** C9 as stated fails: a number is not turned into text and escaped, the
    call raises. *)
Lemma number_cell_not_stringified :
  ~ (forall cell, html_escape cell = ok (escape_text true (py_str cell))).
Proof. intros H. specialize (H (PyInt 42)). discriminate H. Qed.

(** ** The time stamp *)

Lemma safe_text_app (a b : string) :
  safe_text (a ++ b) = safe_text a && safe_text b.
Proof.
  induction a as [|c a IH]; simpl; [reflexivity|].
  now rewrite IH, andb_assoc.
Qed.

Lemma safe_text_zeros (k : nat) : safe_text (zeros k) = true.
Proof. induction k as [|k IH]; simpl; [reflexivity | exact IH]. Qed.

Lemma safe_text_uint (u : Decimal.uint) :
  safe_text (NilEmpty.string_of_uint u) = true.
Proof. induction u; simpl; auto. Qed.

Lemma safe_text_decimal (n : Z) : safe_text (decimal n) = true.
Proof.
  unfold decimal, NilZero.string_of_int, NilZero.string_of_uint.
  destruct (Z.to_int n) as [u|u]; destruct u; try reflexivity;
    apply safe_text_uint.
Qed.

Lemma safe_text_zpad (w : nat) (n : Z) : safe_text (zpad w n) = true.
Proof.
  unfold zpad. destruct (n <? 0)%Z.
  - change ("-" ++ ?x) with (String "-" x). cbn [safe_text].
    now rewrite safe_text_app, safe_text_zeros, safe_text_decimal.
  - now rewrite safe_text_app, safe_text_zeros, safe_text_decimal.
Qed.

Lemma strftime_FORMAT (d : datetime) :
  strftime d FORMAT
  = decimal (year d) ++ "-" ++ zpad 2 (month d) ++ "-" ++ zpad 2 (day d)
    ++ " " ++ zpad 2 (hour d) ++ ":" ++ zpad 2 (minute d).
Proof.
  unfold FORMAT. cbn [strftime Ascii.eqb Bool.eqb directive str1].
  now rewrite append_nil_r.
Qed.

Lemma safe_text_timestamp (d : datetime) : safe_text (strftime d FORMAT) = true.
Proof.
  rewrite strftime_FORMAT.
  rewrite !safe_text_app, safe_text_decimal, !safe_text_zpad. reflexivity.
Qed.

Lemma all_from_spec (f : Z -> bool) (k : nat) :
  forall z, all_from f k z = true ->
  forall x, (z <= x < z + Z.of_nat k)%Z -> f x = true.
Proof.
  induction k as [|k IH]; intros z H x Hx; [lia|].
  cbn [all_from] in H. apply andb_true_iff in H. destruct H as [Hz Hk].
  destruct (Z.eq_dec x z) as [->|N]; [exact Hz|].
  apply (IH (z + 1)%Z Hk). lia.
Qed.

Lemma two_digit_form_ok (n : Z) :
  (0 <= n < 100)%Z -> two_digit_form n = true.
Proof.
  intros H. apply (all_from_spec two_digit_form 100 0); [|lia].
  vm_compute. reflexivity.
Qed.



Lemma two_digits_of (n : Z) :
  (0 <= n < 100)%Z ->
  exists a b, zpad 2 n = String a (String b "")
              /\ is_digit a = true /\ is_digit b = true
              /\ two_digits a b = n.
Proof.
  intros H. apply two_digit_form_ok in H. unfold two_digit_form in H.
  rewrite <- (string_of_list_ascii_of_string (zpad 2 n)).
  destruct (list_ascii_of_string (zpad 2 n)) as [|a [|b [|c l]]];
    try discriminate H.
  apply andb_true_iff in H. destruct H as [H E].
  apply andb_true_iff in H. destruct H as [Ha Hb].
  apply Z.eqb_eq in E. exists a, b. now repeat split.
Qed.


Lemma valid_datetime_bounds (d : datetime) :
  valid_datetime d = true ->
  (1 <= year d <= 9999 /\ 1 <= month d <= 12 /\ 1 <= day d <= 31
   /\ 0 <= hour d <= 23 /\ 0 <= minute d <= 59)%Z.
Proof.
  unfold valid_datetime, MINYEAR, MAXYEAR. intros H.
  repeat (apply andb_true_iff in H; destruct H as [H ?]).
  assert (days_in_month (year d) (month d) <= 31)%Z.
  { unfold days_in_month.
    repeat match goal with |- context [if ?b then _ else _] => destruct b end;
      lia. }
  lia.
Qed.





(** ** The script's table and output *)

Lemma data_text (env : Env) :
  data env
  = text_rows
      [ ["KEY"; "SUMMARY"; "STATUS"; "PARENT"; "RESOLVED"];
        ["ABC-1"; "Something"; "In Progress"; "ABC";
         strftime (datetime_now env) FORMAT] ].
Proof. reflexivity. Qed.

Lemma table_data (env : Env) :
  table (data env)
  = ok ("<table>" ++ LF
        ++ "  <tr><td>KEY</td><td>SUMMARY</td><td>STATUS</td><td>PARENT</td><td>RESOLVED</td></tr>"
        ++ LF
        ++ "  <tr><td>ABC-1</td><td>Something</td><td>In Progress</td><td>ABC</td><td>"
        ++ strftime (datetime_now env) FORMAT ++ "</td></tr>" ++ LF
        ++ "</table>").
Proof.
  rewrite data_text, table_text.
  cbn [lines]. unfold row_line, cells_text. cbn [map].
  rewrite !join_empty_cons. unfold td_text.
  rewrite (escape_single_pass_safe _ (safe_text_timestamp (datetime_now env))).
  generalize (strftime (datetime_now env) FORMAT). intros ts.
  cbn. rewrite !append_assoc. reflexivity.
Qed.

(** C1: the table of the script's two rows, for every clock reading, is the
    text of the scenario, with the time stamp of the reading, as it is, in
    the last cell. *)
Theorem literal_scenario (env : Env) :
  data env
  = [ [PyStr "KEY"; PyStr "SUMMARY"; PyStr "STATUS"; PyStr "PARENT";
       PyStr "RESOLVED"];
      [PyStr "ABC-1"; PyStr "Something"; PyStr "In Progress"; PyStr "ABC";
       PyStr (strftime (datetime_now env) FORMAT)] ]
  /\ table (data env)
     = ok ("<table>" ++ LF
           ++ "  <tr><td>KEY</td><td>SUMMARY</td><td>STATUS</td><td>PARENT</td><td>RESOLVED</td></tr>"
           ++ LF
           ++ "  <tr><td>ABC-1</td><td>Something</td><td>In Progress</td><td>ABC</td><td>"
           ++ strftime (datetime_now env) FORMAT ++ "</td></tr>" ++ LF
           ++ "</table>").
Proof. split; [reflexivity | apply table_data]. Qed.

Lemma length_app (a b : string) :
  String.length (a ++ b) = String.length a + String.length b.
Proof. induction a as [|c a IH]; simpl; [reflexivity | now rewrite IH]. Qed.

Lemma drop_app_length (a b : string) (k : nat) :
  drop (String.length a + k) (a ++ b) = drop k b.
Proof. induction a as [|c a IH]; simpl; [reflexivity | exact IH]. Qed.

Lemma endswith_app (suffix a b : string) :
  String.length suffix <= String.length b ->
  endswith suffix (a ++ b) = endswith suffix b.
Proof.
  intros H. unfold endswith. rewrite length_app.
  replace (String.length a + String.length b - String.length suffix)
    with (String.length a + (String.length b - String.length suffix)) by lia.
  rewrite drop_app_length. f_equal.
  rewrite (proj2 (Nat.leb_le _ _) H). apply Nat.leb_le. lia.
Qed.

(** C3, as the script has it: the text the script builds ends with the
    closing tag and has no newline after it; [print] writes that text and
    one newline, so what is on standard output ends with the closing tag
    and that newline, for every run. *)
Theorem stdout_is_table_and_newline (env : Env) :
  exists t,
    table (data env) = ok t
    /\ endswith "</table>" t = true
    /\ endswith LF t = false
    /\ stdout (main env) = t ++ LF
    /\ endswith ("</table>" ++ LF) (stdout (main env)) = true
    /\ exit_status (main env) = 0%Z.
Proof.
  eexists. split; [apply table_data|].
  unfold main. rewrite table_data. cbn [stdout exit_status].
  unfold print, ok.
  generalize (strftime (datetime_now env) FORMAT). intros ts.
  change ("" ++ ?x) with x.
  rewrite !append_assoc.
  assert (forall suffix tail : string,
             String.length suffix <= String.length tail ->
             endswith suffix
               ("<table>" ++ LF
                ++ "  <tr><td>KEY</td><td>SUMMARY</td><td>STATUS</td><td>PARENT</td><td>RESOLVED</td></tr>"
                ++ LF
                ++ "  <tr><td>ABC-1</td><td>Something</td><td>In Progress</td><td>ABC</td><td>"
                ++ ts ++ tail)
             = endswith suffix tail) as E.
  { intros suffix tail H.
    do 6 (rewrite endswith_app; [|rewrite ?length_app; lia]).
    reflexivity. }
  split; [|split; [|split; [reflexivity | split; [|reflexivity]]]].
  - refine (eq_trans (E "</table>" ("</td></tr>" ++ LF ++ "</table>") _) _);
      [simpl; lia | reflexivity].
  - refine (eq_trans (E LF ("</td></tr>" ++ LF ++ "</table>") _) _);
      [simpl; lia | reflexivity].
  - refine (eq_trans (E ("</table>" ++ LF)
                        ("</td></tr>" ++ LF ++ "</table>" ++ LF) _) _);
      [simpl; lia | reflexivity].
Qed.

(** C3 as stated fails: on standard output a newline follows the closing
    tag. *)
Lemma stdout_does_not_end_with_tag :
  endswith "</table>" (stdout (main sample_env)) = false.
Proof. vm_compute. reflexivity. Qed.

(** C10: two runs whose clock readings give the same time stamp write the
    same text to standard output, whatever else differs between them. *)
Theorem output_determined_by_timestamp (env1 env2 : Env) :
  strftime (datetime_now env1) FORMAT = strftime (datetime_now env2) FORMAT ->
  stdout (main env1) = stdout (main env2).
Proof.
  intros H. unfold main. rewrite !data_text. now rewrite H.
Qed.

Lemma output_determined_by_timestamp_witness :
  strftime (datetime_now sample_env) FORMAT
  = strftime (datetime_now sample_env_later) FORMAT
  /\ sample_env <> sample_env_later
  /\ stdout (main sample_env) = stdout (main sample_env_later).
Proof.
  split; [reflexivity|]. split; [discriminate|].
  apply (output_determined_by_timestamp sample_env sample_env_later).
  reflexivity.
Defined.

(** ** Escaped text read back *)

Lemma no_raw_special_escape_char (c : ascii) (r : string) :
  no_raw_special r = true -> no_raw_special (escape_char c ++ r) = true.
Proof.
  intros H. destruct c as [[] [] [] [] [] [] [] []]; cbn; exact H.
Qed.

Lemma no_raw_special_escape (s : string) :
  no_raw_special (escape_single_pass s) = true.
Proof.
  unfold escape_single_pass.
  induction s as [|c s IH]; [reflexivity|].
  cbn [flat_map_str]. now apply no_raw_special_escape_char.
Qed.

Lemma no_raw_special_contains (c : ascii) (s : string) :
  is_special c = true -> Ascii.eqb c AMP = false ->
  no_raw_special s = true -> contains c s = false.
Proof.
  intros Hc Ha. induction s as [|a s IH]; [reflexivity|].
  cbn [no_raw_special contains]. intros H.
  apply andb_true_iff in H. destruct H as [H1 H2].
  destruct (Ascii.eqb_spec c a) as [<-|_]; [|now apply IH].
  rewrite Ha, Hc in H1. discriminate H1.
Qed.

Section RoundTrip.

Variable html5 : string -> option string.
Hypothesis core : has_core_entities html5.

Lemma sub_charref_amp (r : string) :
  sub_charref html5 0 ("&amp;" ++ r) = String "&" (sub_charref html5 0 r).
Proof.
  destruct core as (H & _). cbn. now rewrite H.
Qed.

Lemma sub_charref_lt (r : string) :
  sub_charref html5 0 ("&lt;" ++ r) = String "<" (sub_charref html5 0 r).
Proof.
  destruct core as (_ & H & _). cbn. now rewrite H.
Qed.

Lemma sub_charref_gt (r : string) :
  sub_charref html5 0 ("&gt;" ++ r) = String ">" (sub_charref html5 0 r).
Proof.
  destruct core as (_ & _ & H & _). cbn. now rewrite H.
Qed.

Lemma sub_charref_quot (r : string) :
  sub_charref html5 0 ("&quot;" ++ r) = String QUOT (sub_charref html5 0 r).
Proof.
  destruct core as (_ & _ & _ & H). cbn. now rewrite H.
Qed.

Lemma sub_charref_apos (r : string) :
  sub_charref html5 0 ("&#x27;" ++ r) = String "'" (sub_charref html5 0 r).
Proof. reflexivity. Qed.

Lemma sub_charref_escape_char (c : ascii) (r : string) :
  sub_charref html5 0 (escape_char c ++ r)
  = String c (sub_charref html5 0 r).
Proof.
  unfold escape_char.
  destruct (Ascii.eqb_spec c AMP) as [->|]; [apply sub_charref_amp|].
  destruct (Ascii.eqb_spec c LT) as [->|]; [apply sub_charref_lt|].
  destruct (Ascii.eqb_spec c GT) as [->|]; [apply sub_charref_gt|].
  destruct (Ascii.eqb_spec c QUOT) as [->|]; [apply sub_charref_quot|].
  destruct (Ascii.eqb_spec c APOS) as [->|]; [apply sub_charref_apos|].
  cbn [str1 append sub_charref].
  destruct (Ascii.eqb_spec c AMP); [contradiction | reflexivity].
Qed.

Lemma sub_charref_escape (s : string) :
  sub_charref html5 0 (escape_single_pass s) = s.
Proof.
  unfold escape_single_pass.
  induction s as [|c s IH]; [reflexivity|].
  cbn [flat_map_str]. now rewrite sub_charref_escape_char, IH.
Qed.

Lemma sub_charref_no_amp (t : string) :
  contains AMP t = false -> sub_charref html5 0 t = t.
Proof.
  induction t as [|c t IH]; [reflexivity|].
  cbn [contains sub_charref]. rewrite (Ascii.eqb_sym c AMP).
  destruct (Ascii.eqb AMP c); [discriminate|].
  intros H. now rewrite IH.
Qed.

Lemma unescape_sub_charref (t : string) :
  unescape html5 t = sub_charref html5 0 t.
Proof.
  unfold unescape. destruct (contains AMP t) eqn:E; [reflexivity|].
  symmetry. now apply sub_charref_no_amp.
Qed.

Lemma unescape_escape (s : string) :
  unescape html5 (escape_single_pass s) = s.
Proof. rewrite unescape_sub_charref. apply sub_charref_escape. Qed.

End RoundTrip.

(** C6: a text that holds one of the five characters is escaped to a text
    with no raw occurrence of them: [<], [>], the double quote and the
    apostrophe are gone, and every ampersand starts one of the five
    references; and [html.unescape], with the named references of the
    library, gives the text back. *)
Theorem escape_round_trip (s : string) :
  has_special s = true ->
  exists e,
    html_escape (PyStr s) = ok e
    /\ no_raw_special e = true
    /\ contains LT e = false /\ contains GT e = false
    /\ contains QUOT e = false /\ contains APOS e = false
    /\ forall html5, has_core_entities html5 -> unescape html5 e = s.
Proof.
  intros _. exists (escape_single_pass s).
  pose proof (no_raw_special_escape s) as N.
  split; [unfold html_escape; now rewrite escape_text_single_pass|].
  split; [exact N|].
  repeat (split; [now apply no_raw_special_contains|]).
  intros html5 core. now apply unescape_escape.
Qed.

Lemma escape_round_trip_witness :
  has_special "O'Brien & <Sons>" = true
  /\ has_core_entities html5_core
  /\ unescape html5_core "O&#x27;Brien &amp; &lt;Sons&gt;" = "O'Brien & <Sons>".
Proof.
  assert (has_core_entities html5_core) as C by (repeat split; reflexivity).
  split; [reflexivity|]. split; [exact C|].
  destruct (escape_round_trip "O'Brien & <Sons>" eq_refl) as (e & E & _ & _ & _ & _ & _ & U).
  injection E as <-. exact (U html5_core C).
Defined.

(** ** Tags in the output

    The escaped text of a cell holds no [<], so a tag can only start where
    the script has written one. *)

Lemma contains_LT_escape (s : string) :
  contains LT (escape_single_pass s) = false.
Proof.
  apply no_raw_special_contains; [reflexivity .. | apply no_raw_special_escape].
Qed.

Lemma contains_cons_false (c a : ascii) (s : string) :
  contains c (String a s) = false ->
  Ascii.eqb c a = false /\ contains c s = false.
Proof.
  cbn [contains]. destruct (Ascii.eqb c a); [discriminate | now split].
Qed.

Lemma occurrences_skip (p a b : string) :
  contains LT a = false ->
  occurrences (String LT p) (a ++ b) = occurrences (String LT p) b.
Proof.
  induction a as [|c a IH]; [reflexivity|].
  intros H. apply contains_cons_false in H. destruct H as [Hc Ha].
  cbn [append occurrences startswith]. rewrite Hc. now rewrite IH.
Qed.

Lemma partition_skip (p a b : string) :
  contains LT a = false ->
  partition (String LT p) (a ++ b)
  = match partition (String LT p) b with
    | Some (x, y) => Some (a ++ x, y)
    | None => None
    end.
Proof.
  induction a as [|c a IH].
  - intros _. cbn [append]. now destruct (partition (String LT p) b) as [[x y]|].
  - intros H. apply contains_cons_false in H. destruct H as [Hc Ha].
    cbn [append partition startswith]. rewrite Hc, (IH Ha).
    now destruct (partition (String LT p) b) as [[x y]|].
Qed.

Lemma td_text_app (s r : string) :
  td_text s ++ r = "<td>" ++ escape_single_pass s ++ "</td>" ++ r.
Proof. unfold td_text. now rewrite !append_assoc. Qed.

Lemma cells_text_cons (s : string) (row : list string) :
  cells_text (s :: row) = td_text s ++ cells_text row.
Proof. unfold cells_text. cbn [map]. apply join_empty_cons. Qed.

Lemma occurrences_tr_td_text (s r : string) :
  occurrences "<tr>" (td_text s ++ r) = occurrences "<tr>" r.
Proof.
  rewrite td_text_app. cbn.
  change "<tr>" with (String LT "tr>").
  now rewrite occurrences_skip by apply contains_LT_escape.
Qed.

Lemma occurrences_td_td_text (s r : string) :
  occurrences "<td>" (td_text s ++ r) = S (occurrences "<td>" r).
Proof.
  rewrite td_text_app. cbn.
  change "<td>" with (String LT "td>").
  now rewrite occurrences_skip by apply contains_LT_escape.
Qed.

Lemma occurrences_tr_cells (row : list string) (r : string) :
  occurrences "<tr>" (cells_text row ++ r) = occurrences "<tr>" r.
Proof.
  induction row as [|s row IH]; [reflexivity|].
  now rewrite cells_text_cons, append_assoc, occurrences_tr_td_text.
Qed.

Lemma occurrences_td_cells (row : list string) (r : string) :
  occurrences "<td>" (cells_text row ++ r)
  = List.length row + occurrences "<td>" r.
Proof.
  induction row as [|s row IH]; [reflexivity|].
  rewrite cells_text_cons, append_assoc, occurrences_td_td_text, IH.
  reflexivity.
Qed.

Lemma row_line_app (row : list string) (r : string) :
  row_line row ++ r = "  <tr>" ++ cells_text row ++ "</tr>" ++ LF ++ r.
Proof. unfold row_line. now rewrite !append_assoc. Qed.

Lemma occurrences_tr_row_line (row : list string) (r : string) :
  occurrences "<tr>" (row_line row ++ r) = S (occurrences "<tr>" r).
Proof.
  rewrite row_line_app. cbn. now rewrite occurrences_tr_cells.
Qed.

Lemma occurrences_tr_lines (rows : list (list string)) (r : string) :
  occurrences "<tr>" (lines rows ++ r)
  = List.length rows + occurrences "<tr>" r.
Proof.
  induction rows as [|row rows IH]; [reflexivity|].
  cbn [lines]. rewrite append_assoc, occurrences_tr_row_line, IH.
  reflexivity.
Qed.

Lemma partition_close_td_text (s r : string) :
  partition "</tr>" (td_text s ++ r)
  = match partition "</tr>" r with
    | Some (x, y) => Some (td_text s ++ x, y)
    | None => None
    end.
Proof.
  rewrite td_text_app. cbn [append partition startswith Ascii.eqb Bool.eqb].
  change "</tr>" with (String LT "/tr>").
  rewrite partition_skip by apply contains_LT_escape.
  cbn [append partition startswith Ascii.eqb Bool.eqb].
  destruct (partition (String LT "/tr>") r) as [[x y]|]; [|reflexivity].
  now rewrite td_text_app.
Qed.

Lemma partition_close_cells (row : list string) (r : string) :
  partition "</tr>" (cells_text row ++ "</tr>" ++ r)
  = Some (cells_text row, r).
Proof.
  induction row as [|s row IH]; [reflexivity|].
  now rewrite cells_text_cons, append_assoc, partition_close_td_text, IH.
Qed.

Lemma tr_free_LF : tr_free LF.
Proof. intros x. apply (partition_skip "tr>" LF x). reflexivity. Qed.

Lemma tr_free_open : tr_free ("<table>" ++ LF).
Proof.
  intros x. cbn [LF append partition startswith Ascii.eqb Bool.eqb].
  now destruct (partition "<tr>" x) as [[a b]|].
Qed.

Lemma partition_open_row (x : string) :
  partition "<tr>" ("  <tr>" ++ x) = Some ("  ", x).
Proof. reflexivity. Qed.

Lemma tr_bodies_from_lines (rows : list (list string)) :
  forall fuel pre,
    tr_free pre -> List.length rows <= fuel ->
    tr_bodies_from fuel (pre ++ lines rows ++ "</table>")
    = map cells_text rows.
Proof.
  induction rows as [|row rows IH]; intros fuel pre F L.
  - destruct fuel as [|k]; [reflexivity|].
    cbn [lines tr_bodies_from map]. now rewrite F.
  - destruct fuel as [|k]; [cbn in L; lia|].
    cbn [lines tr_bodies_from map].
    rewrite append_assoc, row_line_app, F, partition_open_row.
    rewrite partition_close_cells. f_equal.
    apply (IH k LF tr_free_LF). cbn in L. lia.
Qed.

Lemma length_lines (rows : list (list string)) :
  List.length rows <= String.length (lines rows).
Proof.
  induction rows as [|row rows IH]; [reflexivity|].
  cbn [lines List.length]. unfold row_line. rewrite !length_app. cbn. lia.
Qed.

Lemma tr_bodies_table (rows : list (list string)) :
  tr_bodies ("<table>" ++ LF ++ lines rows ++ "</table>")
  = map cells_text rows.
Proof.
  unfold tr_bodies.
  rewrite <- (append_assoc "<table>" LF).
  apply tr_bodies_from_lines; [exact tr_free_open|].
  rewrite !length_app. pose proof (length_lines rows). lia.
Qed.

(** C5: for rows of text cells of any lengths, [<tr>] occurs in the table
    as often as there are rows, and between the i-th [<tr>] and the
    [</tr>] that closes it [<td>] occurs as often as the i-th row has
    cells. *)
Theorem table_structure (rows : list (list string)) :
  exists out,
    table (text_rows rows) = ok out
    /\ occurrences "<tr>" out = List.length rows
    /\ List.length (tr_bodies out) = List.length rows
    /\ map (occurrences "<td>") (tr_bodies out)
       = map (@List.length string) rows.
Proof.
  eexists. split; [apply table_text|].
  rewrite tr_bodies_table. split; [|split].
  - cbn. rewrite occurrences_tr_lines. cbn. lia.
  - apply length_map.
  - rewrite map_map. apply map_ext. intros row.
    rewrite <- (append_nil_r (cells_text row)), occurrences_td_cells.
    cbn. lia.
Qed.

(** * Further properties of the script's code *)

(** ** More on the escaping of a cell *)

Lemma escape_single_pass_app (a b : string) :
  escape_single_pass (a ++ b) = escape_single_pass a ++ escape_single_pass b.
Proof. apply flat_map_str_app. Qed.

Lemma length_escape_char (c : ascii) :
  1 <= String.length (escape_char c)
  /\ (is_special c = true -> 2 <= String.length (escape_char c)).
Proof.
  destruct c as [[] [] [] [] [] [] [] []]; cbn; split;
    solve [lia | discriminate | intros _; lia].
Qed.

Lemma length_escape_le (s : string) :
  String.length s <= String.length (escape_single_pass s).
Proof.
  unfold escape_single_pass.
  induction s as [|c s IH]; [reflexivity|].
  cbn [flat_map_str String.length]. rewrite length_app.
  destruct (length_escape_char c) as [H _]. lia.
Qed.

Lemma length_escape_lt (s : string) :
  safe_text s = false ->
  String.length s < String.length (escape_single_pass s).
Proof.
  induction s as [|c s IH]; [discriminate|].
  cbn [safe_text]. intros H.
  change (escape_single_pass (String c s))
    with (escape_char c ++ escape_single_pass s).
  rewrite length_app. cbn [String.length].
  destruct (length_escape_char c) as [H1 H2].
  pose proof (length_escape_le s) as L.
  destruct (is_special c); [specialize (H2 eq_refl); lia|].
  cbn [negb andb] in H. specialize (IH H). lia.
Qed.

Lemma escape_fixed_iff_safe (s : string) :
  escape_single_pass s = s <-> safe_text s = true.
Proof.
  split; [|apply escape_single_pass_safe].
  intros E. destruct (safe_text s) eqn:S; [reflexivity|].
  pose proof (length_escape_lt s S) as L. rewrite E in L. lia.
Qed.

Lemma safe_text_escape_char (c : ascii) :
  safe_text (escape_char c) = negb (is_special c).
Proof. destruct c as [[] [] [] [] [] [] [] []]; reflexivity. Qed.

Lemma safe_text_escape (s : string) :
  safe_text (escape_single_pass s) = safe_text s.
Proof.
  unfold escape_single_pass.
  induction s as [|c s IH]; [reflexivity|].
  cbn [flat_map_str safe_text].
  now rewrite safe_text_app, safe_text_escape_char, IH.
Qed.

Lemma html5_core_has_core : has_core_entities html5_core.
Proof. repeat split; reflexivity. Qed.

Lemma escape_single_pass_inj (a b : string) :
  escape_single_pass a = escape_single_pass b -> a = b.
Proof.
  intros E.
  rewrite <- (unescape_escape html5_core html5_core_has_core a).
  rewrite <- (unescape_escape html5_core html5_core_has_core b).
  now rewrite E.
Qed.

(** X1: the escaped text of two texts put together is the escaped texts put
    together; a cell can be escaped piece by piece. *)
Theorem escape_concatenation (a b : string) :
  escape_text true (a ++ b) = escape_text true a ++ escape_text true b.
Proof. rewrite !escape_text_single_pass. apply escape_single_pass_app. Qed.

(** X2: two different texts never have the same escaped text. *)
Theorem escape_distinct (a b : string) :
  a <> b -> escape_text true a <> escape_text true b.
Proof.
  intros N E. apply N. apply escape_single_pass_inj.
  now rewrite <- !escape_text_single_pass.
Qed.

Lemma escape_distinct_witness :
  "<" <> "&lt;" /\ escape_text true "<" <> escape_text true "&lt;".
Proof.
  split; [discriminate|]. apply (escape_distinct "<" "&lt;"). discriminate.
Defined.

(** X3: escaping never shortens a text, and it leaves a text as it is only
    when the text has none of the five characters. *)
Theorem escape_length_and_fixed_points (s : string) :
  String.length s <= String.length (escape_text true s)
  /\ (escape_text true s = s <-> safe_text s = true).
Proof.
  rewrite escape_text_single_pass.
  split; [apply length_escape_le | apply escape_fixed_iff_safe].
Qed.

Lemma escape_length_and_fixed_points_witness :
  escape_text true "R&D" <> "R&D" /\ safe_text "R&D" = false
  /\ String.length "R&D" <= String.length (escape_text true "R&D").
Proof.
  destruct (escape_length_and_fixed_points "R&D") as [L [F _]].
  split; [|split; [reflexivity | exact L]].
  intros E. specialize (F E). discriminate F.
Defined.

(** X4: escaping does not recognise text that is escaped already: escaping
    twice gives the same as escaping once only for a text with none of the
    five characters. *)
Theorem escape_twice (s : string) :
  escape_text true (escape_text true s) = escape_text true s
  <-> safe_text s = true.
Proof.
  rewrite !escape_text_single_pass.
  rewrite escape_fixed_iff_safe. now rewrite safe_text_escape.
Qed.

Lemma escape_twice_witness :
  safe_text "a<b" = false
  /\ escape_text true (escape_text true "a<b") = "a&amp;lt;b"
  /\ escape_text true (escape_text true "a<b") <> escape_text true "a<b".
Proof.
  split; [reflexivity|]. split; [reflexivity|].
  intros E. apply (proj1 (escape_twice "a<b")) in E. discriminate E.
Defined.

(** ** The loop over the rows *)

Lemma for_rows_from (data : list (list pyval)) (t : string) :
  for_rows t data = (b <- for_rows "" data ;; ok (t ++ b)).
Proof.
  revert t. induction data as [|row data IH]; intros t.
  - cbn [for_rows bind ok]. now rewrite append_nil_r.
  - cbn [for_rows]. destruct (tr row) as [e|line]; [reflexivity|].
    cbn [bind append]. rewrite (IH (t ++ line)), (IH line).
    destruct (for_rows "" data) as [e|b]; [reflexivity|].
    cbn [bind ok]. now rewrite append_assoc.
Qed.

Lemma for_rows_app (d1 d2 : list (list pyval)) (t : string) :
  for_rows t (d1 ++ d2) = (t' <- for_rows t d1 ;; for_rows t' d2).
Proof.
  revert t. induction d1 as [|row d1 IH]; intros t; [reflexivity|].
  cbn [app for_rows]. destruct (tr row) as [e|line]; [reflexivity|].
  cbn [bind]. apply IH.
Qed.

(** X5: the rows are rendered one after the other, each on its own: the
    table of two lists of rows put together holds the lines of the first and
    then the lines of the second, and an exception in either part is the
    result of the whole, that of the first part first. *)
Theorem table_of_appended_rows (d1 d2 : list (list pyval)) :
  table (d1 ++ d2)
  = (b1 <- for_rows "" d1 ;;
     b2 <- for_rows "" d2 ;;
     ok ("<table>" ++ LF ++ b1 ++ b2 ++ "</table>")).
Proof.
  unfold table. rewrite for_rows_app, (for_rows_from d1).
  destruct (for_rows "" d1) as [e|b1]; [reflexivity|].
  cbn [bind ok]. rewrite (for_rows_from d2).
  destruct (for_rows "" d2) as [e|b2]; [reflexivity|].
  cbn [bind ok]. now rewrite !append_assoc.
Qed.

Lemma startswith_app (p s : string) : startswith p (p ++ s) = true.
Proof.
  induction p as [|c p IH]; [reflexivity|].
  cbn [append startswith]. now rewrite Ascii.eqb_refl.
Qed.

Lemma endswith_self (s : string) : endswith s s = true.
Proof.
  unfold endswith. rewrite Nat.leb_refl, Nat.sub_diag.
  cbn [andb]. destruct s; apply String.eqb_refl.
Qed.

(** X6: whatever the rows, a table that is rendered starts with the opening
    tag and a newline and ends with the closing tag, with at least these
    sixteen characters. *)
Theorem table_frame (data : list (list pyval)) (out : string) :
  table data = ok out ->
  startswith ("<table>" ++ LF) out = true
  /\ endswith "</table>" out = true
  /\ 16 <= String.length out.
Proof.
  unfold table. rewrite for_rows_from.
  destruct (for_rows "" data) as [e|b]; [discriminate|].
  cbn [bind ok]. intros H. injection H as <-.
  change (startswith ("<table>" ++ LF) (("<table>" ++ LF) ++ b ++ "</table>")
          = true
          /\ endswith "</table>" ((("<table>" ++ LF) ++ b) ++ "</table>")
             = true
          /\ 16 <= String.length (("<table>" ++ LF) ++ b ++ "</table>")).
  split; [|split].
  - apply startswith_app.
  - rewrite endswith_app by reflexivity. apply endswith_self.
  - rewrite !length_app. cbn. lia.
Qed.

Lemma table_frame_witness :
  exists out,
    table (text_rows sample_rows) = ok out
    /\ startswith ("<table>" ++ LF) out = true
    /\ endswith "</table>" out = true
    /\ 16 <= String.length out.
Proof.
  eexists. split; [reflexivity|].
  apply (table_frame (text_rows sample_rows)). reflexivity.
Defined.

(** ** The table read back *)

Lemma partition_open_td (x : string) :
  partition "<td>" ("<td>" ++ x) = Some ("", x).
Proof. reflexivity. Qed.

Lemma partition_close_td (e r : string) :
  contains LT e = false ->
  partition "</td>" (e ++ "</td>" ++ r) = Some (e, r).
Proof.
  intros H. change "</td>" with (String LT "/td>") at 1.
  rewrite (partition_skip "/td>" e _ H).
  replace (partition (String LT "/td>") ("</td>" ++ r)) with (Some ("", r))
    by reflexivity.
  now rewrite append_nil_r.
Qed.

Lemma td_bodies_from_cells (row : list string) :
  forall fuel,
    List.length row <= fuel ->
    td_bodies_from fuel (cells_text row) = map escape_single_pass row.
Proof.
  induction row as [|s row IH]; intros fuel L.
  - destruct fuel; reflexivity.
  - destruct fuel as [|k]; [cbn in L; lia|].
    cbn [td_bodies_from map].
    rewrite cells_text_cons, td_text_app, partition_open_td.
    rewrite partition_close_td by apply contains_LT_escape.
    f_equal. apply IH. cbn in L. lia.
Qed.

Lemma length_cells_text (row : list string) :
  List.length row <= String.length (cells_text row).
Proof.
  induction row as [|s row IH]; [reflexivity|].
  rewrite cells_text_cons, td_text_app, !length_app. cbn.
  unfold cells_text in IH. fold (cells_text row) in IH. lia.
Qed.

Lemma td_bodies_cells (row : list string) :
  td_bodies (cells_text row) = map escape_single_pass row.
Proof. apply td_bodies_from_cells, length_cells_text. Qed.

Lemma read_table_lines (html5 : string -> option string)
    (rows : list (list string)) :
  has_core_entities html5 ->
  read_table html5 ("<table>" ++ LF ++ lines rows ++ "</table>") = rows.
Proof.
  intros C. unfold read_table. rewrite tr_bodies_table, map_map.
  rewrite <- (map_id rows) at 2. apply map_ext. intros row.
  rewrite td_bodies_cells, map_map.
  rewrite <- (map_id row) at 2. apply map_ext. intros s.
  now apply unescape_escape.
Qed.

(** X7: nothing of the rows is lost in the table: reading the [<tr>]
    elements of the output, the [<td>] elements of each, and unescaping
    their texts gives the rows of text cells the table was made from. *)
Theorem table_read_back (html5 : string -> option string)
    (rows : list (list string)) :
  has_core_entities html5 ->
  exists out,
    table (text_rows rows) = ok out /\ read_table html5 out = rows.
Proof.
  intros C. eexists. split; [apply table_text|].
  now apply read_table_lines.
Qed.

Lemma table_read_back_witness :
  has_core_entities html5_core
  /\ exists out,
       table (text_rows sample_rows) = ok out
       /\ read_table html5_core out = sample_rows.
Proof.
  split; [exact html5_core_has_core|].
  apply (table_read_back html5_core sample_rows). exact html5_core_has_core.
Defined.

(** X8: two different lists of rows of text cells never give the same
    table. *)
Theorem table_distinct (rows1 rows2 : list (list string)) :
  rows1 <> rows2 -> table (text_rows rows1) <> table (text_rows rows2).
Proof.
  intros N E. apply N. rewrite !table_text in E. injection E as E.
  rewrite <- (read_table_lines html5_core rows1 html5_core_has_core).
  rewrite <- (read_table_lines html5_core rows2 html5_core_has_core).
  unfold LF. cbn [append]. now rewrite E.
Qed.

Lemma table_distinct_witness :
  [["<"]; []] <> [["&lt;"]]
  /\ table (text_rows [["<"]; []]) <> table (text_rows [["&lt;"]]).
Proof.
  split; [discriminate|].
  apply (table_distinct [["<"]; []] [["&lt;"]]). discriminate.
Defined.

(** ** Opening and closing tags *)

Section TagCount.

Variable p : string.
Variables a bo bc : nat.
Hypothesis count_td :
  forall s x, occurrences p (td_text s ++ x) = a + occurrences p x.
Hypothesis count_open :
  forall x, occurrences p ("  <tr>" ++ x) = bo + occurrences p x.
Hypothesis count_close :
  forall x, occurrences p ("</tr>" ++ LF ++ x) = bc + occurrences p x.

Lemma occurrences_cells (row : list string) (x : string) :
  occurrences p (cells_text row ++ x)
  = List.length row * a + occurrences p x.
Proof.
  induction row as [|s row IH]; [reflexivity|].
  rewrite cells_text_cons, append_assoc, count_td, IH.
  cbn [List.length]. lia.
Qed.

Lemma occurrences_lines (rows : list (list string)) (x : string) :
  occurrences p (lines rows ++ x)
  = List.length rows * (bo + bc) + total_cells rows * a + occurrences p x.
Proof.
  unfold total_cells.
  induction rows as [|row rows IH]; [reflexivity|].
  cbn [lines concat List.length].
  rewrite append_assoc, row_line_app, count_open, occurrences_cells.
  rewrite count_close, IH, List.length_app. lia.
Qed.

End TagCount.

Ltac count_in_td q :=
  let s := fresh "s" in let y := fresh "y" in
  intros s y; rewrite td_text_app; cbn;
  change (String "<" q) with (String LT q);
  rewrite occurrences_skip by apply contains_LT_escape;
  reflexivity.

Lemma count_table_lines (rows : list (list string)) (x : string) :
  occurrences "<table>" (lines rows ++ x) = occurrences "<table>" x.
Proof.
  rewrite (occurrences_lines "<table>" 0 0 0);
    [lia | count_in_td "table>" | reflexivity | reflexivity].
Qed.

Lemma count_end_table_lines (rows : list (list string)) (x : string) :
  occurrences "</table>" (lines rows ++ x) = occurrences "</table>" x.
Proof.
  rewrite (occurrences_lines "</table>" 0 0 0);
    [lia | count_in_td "/table>" | reflexivity | reflexivity].
Qed.

Lemma count_end_tr_lines (rows : list (list string)) (x : string) :
  occurrences "</tr>" (lines rows ++ x)
  = List.length rows + occurrences "</tr>" x.
Proof.
  rewrite (occurrences_lines "</tr>" 0 0 1);
    [lia | count_in_td "/tr>" | reflexivity | reflexivity].
Qed.

Lemma count_td_lines (rows : list (list string)) (x : string) :
  occurrences "<td>" (lines rows ++ x)
  = total_cells rows + occurrences "<td>" x.
Proof.
  rewrite (occurrences_lines "<td>" 1 0 0);
    [lia | count_in_td "td>" | reflexivity | reflexivity].
Qed.

Lemma count_end_td_lines (rows : list (list string)) (x : string) :
  occurrences "</td>" (lines rows ++ x)
  = total_cells rows + occurrences "</td>" x.
Proof.
  rewrite (occurrences_lines "</td>" 1 0 0);
    [lia | count_in_td "/td>" | reflexivity | reflexivity].
Qed.

(** X9: in the table of any rows of text cells every tag that is opened is
    closed: one [<table>] and one [</table>], as many [</tr>] as [<tr>],
    one pair for each row, and as many [</td>] as [<td>], one pair for each
    cell of all rows. *)
Theorem table_tags_balanced (rows : list (list string)) :
  exists out,
    table (text_rows rows) = ok out
    /\ occurrences "<table>" out = 1
    /\ occurrences "</table>" out = 1
    /\ occurrences "<tr>" out = List.length rows
    /\ occurrences "</tr>" out = List.length rows
    /\ occurrences "<td>" out = total_cells rows
    /\ occurrences "</td>" out = total_cells rows.
Proof.
  eexists. split; [apply table_text|].
  repeat split.
  - cbn. now rewrite count_table_lines.
  - cbn. now rewrite count_end_table_lines.
  - cbn. rewrite occurrences_tr_lines. cbn. lia.
  - cbn. rewrite count_end_tr_lines. cbn. lia.
  - cbn. rewrite count_td_lines. cbn. lia.
  - cbn. rewrite count_end_td_lines. cbn. lia.
Qed.

(** ** The clock reading in the output *)

Lemma strftime_of_same_minute (d1 d2 : datetime) :
  same_minute d1 d2 -> strftime d1 FORMAT = strftime d2 FORMAT.
Proof.
  intros (Ey & Em & Ed & Eh & En).
  rewrite !strftime_FORMAT. now rewrite Ey, Em, Ed, Eh, En.
Qed.

Lemma append_inv_head (a x y : string) : a ++ x = a ++ y -> x = y.
Proof.
  induction a as [|c a IH]; cbn [append]; [trivial|].
  intros H. injection H as H. now apply IH.
Qed.

Lemma append_inj_length (x y a b : string) :
  String.length x = String.length y -> x ++ a = y ++ b -> x = y.
Proof.
  revert y. induction x as [|c x IH]; intros [|d y]; cbn; try discriminate.
  - reflexivity.
  - intros L H. injection L as L. injection H as -> H.
    f_equal. now apply IH.
Qed.

Lemma append_inv_tail (x y a : string) : x ++ a = y ++ a -> x = y.
Proof.
  intros H. apply (append_inj_length x y a a); [|exact H].
  apply (f_equal String.length) in H. rewrite !length_app in H. lia.
Qed.

Lemma decimal_form_ok (n : Z) :
  (0 <= n < 10000)%Z -> decimal_form n = true.
Proof.
  intros H. apply (all_from_spec decimal_form (100 * 100) 0); [|lia].
  vm_compute. reflexivity.
Qed.

Lemma decimal_inj (n1 n2 : Z) :
  (0 <= n1 < 10000)%Z -> (0 <= n2 < 10000)%Z ->
  decimal n1 = decimal n2 -> n1 = n2.
Proof.
  intros H1 H2 E.
  apply decimal_form_ok in H1. apply decimal_form_ok in H2.
  unfold decimal_form in H1, H2.
  apply andb_true_iff in H1. destruct H1 as [_ H1].
  apply andb_true_iff in H2. destruct H2 as [_ H2].
  apply Z.eqb_eq in H1. apply Z.eqb_eq in H2.
  rewrite <- H1, <- H2. now rewrite E.
Qed.

(** The digits in front of a text end where the first [-] stands. *)
Lemma take_while_digits (ds r : string) :
  all_digits ds = true -> take_while is_digit (ds ++ String "-" r) = ds.
Proof.
  induction ds as [|c ds IH]; [reflexivity|].
  cbn [all_digits append take_while]. intros H.
  apply andb_true_iff in H. destruct H as [Hc Hd].
  now rewrite Hc, (IH Hd).
Qed.

Lemma take_while_decimal (n : Z) (r : string) :
  (0 <= n < 10000)%Z -> take_while is_digit (decimal n ++ "-" ++ r) = decimal n.
Proof.
  intros H. apply (take_while_digits (decimal n) r).
  apply decimal_form_ok in H. unfold decimal_form in H.
  apply andb_true_iff in H. now destruct H.
Qed.

Lemma same_minute_of_strftime (d1 d2 : datetime) :
  valid_datetime d1 = true -> valid_datetime d2 = true ->
  strftime d1 FORMAT = strftime d2 FORMAT -> same_minute d1 d2.
Proof.
  intros V1 V2 E.
  apply valid_datetime_bounds in V1. apply valid_datetime_bounds in V2.
  destruct V1 as (Hy1 & Hm1 & Hd1 & Hh1 & Hn1).
  destruct V2 as (Hy2 & Hm2 & Hd2 & Hh2 & Hn2).
  rewrite !strftime_FORMAT in E.
  assert (year d1 = year d2) as Ey.
  { pose proof (f_equal (take_while is_digit) E) as T.
    rewrite !take_while_decimal in T by lia.
    apply decimal_inj; [lia | lia | exact T]. }
  rewrite Ey in E. apply append_inv_head in E.
  destruct (two_digits_of (month d1)) as (a1 & b1 & Pm1 & _ & _ & Em1); [lia|].
  destruct (two_digits_of (month d2)) as (a2 & b2 & Pm2 & _ & _ & Em2); [lia|].
  destruct (two_digits_of (day d1)) as (e1 & f1 & Pd1 & _ & _ & Ed1); [lia|].
  destruct (two_digits_of (day d2)) as (e2 & f2 & Pd2 & _ & _ & Ed2); [lia|].
  destruct (two_digits_of (hour d1)) as (g1 & h1 & Ph1 & _ & _ & Eh1); [lia|].
  destruct (two_digits_of (hour d2)) as (g2 & h2 & Ph2 & _ & _ & Eh2); [lia|].
  destruct (two_digits_of (minute d1)) as (i1 & j1 & Pn1 & _ & _ & En1);
    [lia|].
  destruct (two_digits_of (minute d2)) as (i2 & j2 & Pn2 & _ & _ & En2);
    [lia|].
  rewrite Pm1, Pm2, Pd1, Pd2, Ph1, Ph2, Pn1, Pn2 in E.
  cbn [append] in E.
  injection E as -> -> -> -> -> -> -> ->.
  unfold same_minute. repeat split; congruence.
Qed.

Lemma stdout_data (env : Env) :
  stdout (main env)
  = ("<table>" ++ LF
     ++ "  <tr><td>KEY</td><td>SUMMARY</td><td>STATUS</td><td>PARENT</td><td>RESOLVED</td></tr>"
     ++ LF
     ++ "  <tr><td>ABC-1</td><td>Something</td><td>In Progress</td><td>ABC</td><td>")
    ++ strftime (datetime_now env) FORMAT
    ++ ("</td></tr>" ++ LF ++ "</table>" ++ LF).
Proof.
  unfold main. rewrite table_data. cbn [stdout]. unfold print, ok.
  change ("" ++ ?x) with x. now rewrite !append_assoc.
Qed.

(** X10: the time stamp shows the clock reading to the minute and no more:
    two readings give the same time stamp exactly when they agree in year,
    month, day, hour and minute, whatever their seconds and microseconds. *)
Theorem timestamp_same_minute (d1 d2 : datetime) :
  valid_datetime d1 = true -> valid_datetime d2 = true ->
  (strftime d1 FORMAT = strftime d2 FORMAT <-> same_minute d1 d2).
Proof.
  intros V1 V2. split.
  - now apply same_minute_of_strftime.
  - apply strftime_of_same_minute.
Qed.

Lemma timestamp_same_minute_witness :
  valid_datetime (clock sample_env) = true
  /\ valid_datetime (clock sample_env_later) = true
  /\ second (clock sample_env) <> second (clock sample_env_later)
  /\ same_minute (clock sample_env) (clock sample_env_later).
Proof.
  split; [reflexivity|]. split; [reflexivity|]. split; [discriminate|].
  apply (timestamp_same_minute (clock sample_env) (clock sample_env_later));
    reflexivity.
Defined.

(** X11: what the script prints changes with the minute of the clock and
    with nothing else: two runs print the same text exactly when their
    clock readings agree in year, month, day, hour and minute. *)
Theorem stdout_same_minute (env1 env2 : Env) :
  valid_datetime (datetime_now env1) = true ->
  valid_datetime (datetime_now env2) = true ->
  (stdout (main env1) = stdout (main env2)
   <-> same_minute (datetime_now env1) (datetime_now env2)).
Proof.
  intros V1 V2. rewrite !stdout_data. split.
  - intros E. apply append_inv_head, append_inv_tail in E.
    now apply same_minute_of_strftime.
  - intros S. now rewrite (strftime_of_same_minute _ _ S).
Qed.

Lemma stdout_same_minute_witness :
  valid_datetime (datetime_now sample_env) = true
  /\ valid_datetime (datetime_now sample_env_later) = true
  /\ (stdout (main sample_env) = stdout (main sample_env_later)
      <-> same_minute (datetime_now sample_env)
            (datetime_now sample_env_later)).
Proof.
  split; [reflexivity|]. split; [reflexivity|].
  apply (stdout_same_minute sample_env sample_env_later); reflexivity.
Defined.

(** ** Newlines *)

Lemma occurrences_char_app (c : ascii) (a b : string) :
  occurrences (String c "") (a ++ b)
  = occurrences (String c "") a + occurrences (String c "") b.
Proof.
  induction a as [|x a IH]; [reflexivity|].
  cbn [append occurrences startswith]. rewrite IH.
  destruct (Ascii.eqb c x); cbn [startswith]; lia.
Qed.

Lemma occurrences_LF_app (a b : string) :
  occurrences LF (a ++ b) = occurrences LF a + occurrences LF b.
Proof. exact (occurrences_char_app "010" a b). Qed.

Lemma occurrences_LF_escape_char (c : ascii) :
  occurrences LF (escape_char c) = occurrences LF (String c "").
Proof. destruct c as [[] [] [] [] [] [] [] []]; reflexivity. Qed.

Lemma occurrences_LF_escape (s : string) :
  occurrences LF (escape_single_pass s) = occurrences LF s.
Proof.
  unfold escape_single_pass.
  induction s as [|c s IH]; [reflexivity|].
  cbn [flat_map_str]. rewrite occurrences_LF_app, IH.
  rewrite occurrences_LF_escape_char.
  now rewrite <- occurrences_LF_app.
Qed.

Lemma join_empty_app (a b : list string) :
  join "" (a ++ b) = join "" a ++ join "" b.
Proof.
  induction a as [|x a IH]; [reflexivity|].
  cbn [app]. now rewrite !join_empty_cons, IH, append_assoc.
Qed.

Lemma occurrences_LF_cells (row : list string) :
  occurrences LF (cells_text row) = occurrences LF (join "" row).
Proof.
  induction row as [|s row IH]; [reflexivity|].
  rewrite cells_text_cons, join_empty_cons, !occurrences_LF_app, IH.
  unfold td_text. rewrite !occurrences_LF_app, occurrences_LF_escape.
  cbn. lia.
Qed.

Lemma occurrences_LF_lines (rows : list (list string)) :
  occurrences LF (lines rows)
  = List.length rows + occurrences LF (join "" (concat rows)).
Proof.
  induction rows as [|row rows IH]; [reflexivity|].
  cbn [lines concat List.length]. unfold row_line.
  rewrite join_empty_app, !occurrences_LF_app, IH, occurrences_LF_cells.
  cbn. lia.
Qed.

(** X12: a newline in a cell is not escaped and goes into the table as it
    is: the table has one newline after the opening tag, one at the end of
    each row, and the newlines of the cells.  Rows whose cells have none
    take one line each. *)
Theorem table_newlines (rows : list (list string)) :
  exists out,
    table (text_rows rows) = ok out
    /\ occurrences LF out
       = 1 + List.length rows + occurrences LF (join "" (concat rows)).
Proof.
  eexists. split; [apply table_text|].
  rewrite !occurrences_LF_app, occurrences_LF_lines. cbn. lia.
Qed.
